(** * bats_api: the Python binding module of the BATS message classes

    A shallow embedding of [BATSPythonAPI.cpp].  The file consists of one
    [BOOST_PYTHON_MODULE(bats_api)] block whose body is four expression
    statements, each a call to a routine defined elsewhere:

<<
    PyEval_InitThreads();
    BATSTradingStatusMsg::export_to_python();
    BATSTradeMsg::export_to_python();
    BATSRetailPriceImproveMsg::export_to_python();
>>

    The body is embedded as a program over those external calls; a host
    gives each call its meaning on a world, and a call either returns or
    throws a C++ exception, which ends the body. *)

From stdpp Require Import base list strings gmap.

Set Default Proof Using "Type".

(** ** The external routines named by the body *)

(** The three message classes whose headers the file includes. *)
Inductive MsgClass : Type :=
| BATSTradingStatusMsg
| BATSTradeMsg
| BATSRetailPriceImproveMsg.

(** A routine the body calls.  [export_to_python] is reached through the
    class name alone ([C::export_to_python()]): it is indexed by a class,
    not by an object. *)
Inductive Extern : Type :=
| PyEval_InitThreads
| export_to_python (c : MsgClass).

#[global] Instance MsgClass_eq_dec : EqDecision MsgClass.
Proof. solve_decision. Defined.

#[global] Instance Extern_eq_dec : EqDecision Extern.
Proof. solve_decision. Defined.

Definition exported_class (f : Extern) : option MsgClass :=
  match f with
  | export_to_python c => Some c
  | PyEval_InitThreads => None
  end.

(** ** Programs: straight-line code over external calls *)

(** Every call of the body has an empty argument list and is an expression
    statement, so a call node carries the callee only and its continuation
    receives nothing. *)
Inductive Prog (A : Type) : Type :=
| Ret (a : A)
| Call (f : Extern) (k : Prog A).

Arguments Ret {A} a.
Arguments Call {A} f k.

Fixpoint bind {A B : Type} (p : Prog A) (k : A → Prog B) : Prog B :=
  match p with
  | Ret a => k a
  | Call f p' => Call f (bind p' k)
  end.

Definition call (f : Extern) : Prog unit := Call f (Ret tt).

Declare Scope prog_scope.
Delimit Scope prog_scope with prog.
Notation "p ;; q" := (bind p (λ _, q))
  (at level 100, q at level 200, right associativity) : prog_scope.

(** The body of [BOOST_PYTHON_MODULE(bats_api)], statement by statement. *)
Definition init_module_bats_api : Prog unit :=
  (call PyEval_InitThreads ;;
   call (export_to_python BATSTradingStatusMsg) ;;
   call (export_to_python BATSTradeMsg) ;;
   call (export_to_python BATSRetailPriceImproveMsg))%prog.

(** The calls a program text contains, in textual order. *)
Fixpoint calls_of {A : Type} (p : Prog A) : list Extern :=
  match p with
  | Ret _ => []
  | Call f k => f :: calls_of k
  end.

(** ** Execution against a host *)

Section Execution.
(** [W]: everything a call can change (interpreter, module namespace,
    the rest of the process).  [E]: the C++ exceptions a routine may
    throw. *)
Context {W E : Type}.

(** How a call (or a whole program) ends.  A throwing routine may have
    changed the world before it threw; that world is kept. *)
Inductive Outcome (A : Type) : Type :=
| Returns (a : A) (w : W)
| Throws (e : E) (w : W).

Arguments Returns {A} a w.
Arguments Throws {A} e w.

(** [PyEval_InitThreads] is a C function ([void PyEval_InitThreads(void)]):
    it cannot throw.  The export routines are C++ and may. *)
Record Host : Type := {
  init_threads : W → W;
  export_class : MsgClass → W → Outcome unit
}.

Definition call_sem (h : Host) (f : Extern) (w : W) : Outcome unit :=
  match f with
  | PyEval_InitThreads => Returns tt (init_threads h w)
  | export_to_python c => export_class h c w
  end.

(** One entry of the call log: the callee, the world it was called in
    and how the call ended. *)
Record Event : Type := {
  callee : Extern;
  before : W;
  result : Outcome unit
}.

(** Sequential execution.  A throwing call ends the program at once:
    the body has no [try] block, so the exception leaves it as thrown,
    together with the world the thrower left behind. *)
Fixpoint run {A : Type} (h : Host) (p : Prog A) (w : W)
  : list Event * Outcome A :=
  match p with
  | Ret a => ([], Returns a w)
  | Call f k =>
      let ev := {| callee := f; before := w; result := call_sem h f w |} in
      match call_sem h f w with
      | Returns _ w' => let '(t, o) := run h k w' in (ev :: t, o)
      | Throws e w' => ([ev], Throws e w')
      end
  end.

Definition trace (h : Host) (w : W) : list Event :=
  (run h init_module_bats_api w).1.

Definition outcome (h : Host) (w : W) : Outcome unit :=
  (run h init_module_bats_api w).2.

Definition calls (t : list Event) : list Extern := callee <$> t.

Definition count_calls (f : Extern) (t : list Event) : nat :=
  length (filter (λ g, g = f) (calls t)).

(** The export calls of a log, by class, in the order they were made. *)
Definition exported (t : list Event) : list MsgClass :=
  omap exported_class (calls t).

Definition completed {A : Type} (o : Outcome A) : bool :=
  match o with Returns _ _ => true | Throws _ _ => false end.

Definition final_world {A : Type} (o : Outcome A) : W :=
  match o with Returns _ w | Throws _ w => w end.

End Execution.

Arguments Outcome : clear implicits.
Arguments Host : clear implicits.
Arguments Event : clear implicits.
Arguments Returns {W E A} a w.
Arguments Throws {W E A} e w.

(** ** The embedding runtime *)

(** What a module namespace can hold: the Python-side interface of one of
    the message classes (its type object with its accessors), or any other
    name. *)
Inductive Symbol : Type :=
| InterfaceOf (c : MsgClass)
| Other (name : string).

#[global] Instance Symbol_eq_dec : EqDecision Symbol.
Proof. solve_decision. Defined.

Definition class_code (c : MsgClass) : nat :=
  match c with
  | BATSTradingStatusMsg => 0
  | BATSTradeMsg => 1
  | BATSRetailPriceImproveMsg => 2
  end.

Definition class_of_code (n : nat) : option MsgClass :=
  match n with
  | 0 => Some BATSTradingStatusMsg
  | 1 => Some BATSTradeMsg
  | 2 => Some BATSRetailPriceImproveMsg
  | _ => None
  end.

#[global] Instance MsgClass_countable : Countable MsgClass.
Proof.
  apply (inj_countable class_code class_of_code).
  by intros [].
Defined.

#[global] Instance Symbol_countable : Countable Symbol.
Proof.
  apply (inj_countable'
           (λ s, match s with InterfaceOf c => inl c | Other n => inr n end)
           (λ x, match x with inl c => InterfaceOf c | inr n => Other n end)).
  by intros [].
Defined.

(** The state of the process as the module sees it.  [R] stands for all the
    state that is neither the interpreter's threading switch nor a module
    namespace: locks held, open files, pending cancellations, ... *)
Record Interp (R : Type) : Type := {
  threads_ready : bool;
  namespace : gset Symbol;
  sys_modules : gmap string (gset Symbol);
  rest : R
}.

Arguments threads_ready {R} _.
Arguments namespace {R} _.
Arguments sys_modules {R} _.
Arguments rest {R} _.

Section Runtime.
Context {R E : Type}.

(** Modelled from the spec: [PyEval_InitThreads] belongs to the Python
    runtime, not to this file.  The spec's words: it "enables
    interpreter-level thread safety", a "one-time, process-wide enabling
    of thread-safe interpreter callbacks". *)
Definition enable_threads (w : Interp R) : Interp R :=
  {| threads_ready := true;
     namespace := namespace w;
     sys_modules := sys_modules w;
     rest := rest w |}.

Definition register (s : Symbol) (w : Interp R) : Interp R :=
  {| threads_ready := threads_ready w;
     namespace := {[ s ]} ∪ namespace w;
     sys_modules := sys_modules w;
     rest := rest w |}.

(** Modelled from the spec: the three [export_to_python] bodies live in
    [BATSTradingStatusMsg.hpp], [BATSTradeMsg.hpp] and
    [BATSRetailPriceImproveMsg.hpp], which are missing.  The spec's words:
    an export routine is "a static operation that registers a native
    type's interface into an embedding scripting module". *)
Definition export_spec (c : MsgClass) (w : Interp R) : Outcome (Interp R) E unit :=
  Returns tt (register (InterfaceOf c) w).

Definition spec_host : Host (Interp R) E :=
  {| init_threads := enable_threads; export_class := export_spec |}.

(** The same runtime, except that the export routine of class [bad]
    throws [e] and registers nothing. *)
Definition failing_host (bad : MsgClass) (e : E) : Host (Interp R) E :=
  {| init_threads := enable_threads;
     export_class := λ c w,
       if decide (c = bad) then Throws e w else export_spec c w |}.

End Runtime.

(** [keeps w w']: what is in effect in [w] is still in effect in [w'].
    Threading, once enabled, is enabled; every symbol of [w]'s namespace is
    in that of [w']. *)
Definition keeps {R : Type} (w w' : Interp R) : Prop :=
  (threads_ready w = true → threads_ready w' = true) ∧
  namespace w ⊆ namespace w'.

(** The interfaces of the three message classes. *)
Definition message_interfaces : gset Symbol :=
  {[ InterfaceOf BATSTradingStatusMsg;
     InterfaceOf BATSTradeMsg;
     InterfaceOf BATSRetailPriceImproveMsg ]}.

(** A process in which nothing has been loaded yet. *)
Definition fresh : Interp unit :=
  {| threads_ready := false; namespace := ∅; sys_modules := ∅; rest := tt |}.

(** A process that already has threading on and a name in the namespace
    the module is about to fill. *)
Definition warm : Interp unit :=
  {| threads_ready := true; namespace := {[ Other "__doc__" ]};
     sys_modules := ∅; rest := tt |}.

(** The world the trading-status export leaves when a load starts from
    [fresh] on the runtime of the spec. *)
Definition after_status : Interp unit :=
  register (InterfaceOf BATSTradingStatusMsg) (enable_threads fresh).

(** The world the trade export leaves after that. *)
Definition after_trade : Interp unit :=
  register (InterfaceOf BATSTradeMsg) after_status.

(** A runtime in which the export of [BATSRetailPriceImproveMsg] throws. *)
Definition rpi_fails : Host (Interp unit) string :=
  failing_host BATSRetailPriceImproveMsg "error_already_set".

(** A runtime in which the export of [BATSTradeMsg] throws. *)
Definition trade_fails : Host (Interp unit) string :=
  failing_host BATSTradeMsg "error_already_set".

(** The call of that export during a load from [fresh], as logged. *)
Definition trade_throw : Event (Interp unit) string :=
  {| callee := export_to_python BATSTradeMsg;
     before := after_status;
     result := Throws "error_already_set" after_status |}.

(** ** The module definition *)

Record PyModule : Type := { m_name : string; m_init : Prog unit }.

(** Modelled from the spec: the [BOOST_PYTHON_MODULE] macro comes from
    Boost.Python and is not in the source.  It names the module after its
    argument, spelled as written, and makes the block that follows the
    module's initialization routine. *)
Definition BOOST_PYTHON_MODULE (name : string) (body : Prog unit) : PyModule :=
  {| m_name := name; m_init := body |}.

Definition bats_api : PyModule :=
  BOOST_PYTHON_MODULE "bats_api" init_module_bats_api.

(** Modelled from the spec: loading is done by the embedding runtime.  The
    initialization routine runs on an empty namespace ("registers new
    symbols into the host module's namespace"); when it returns, that
    namespace becomes reachable under the module's name.  What the runtime
    does when initialization throws is outside the spec ("depends on the
    embedding host's module-initialization contract"): [None]. *)
Definition load {R E : Type} (h : Host (Interp R) E) (m : PyModule)
    (w : Interp R) : option (Interp R) :=
  let scope :=
    {| threads_ready := threads_ready w; namespace := ∅;
       sys_modules := sys_modules w; rest := rest w |} in
  match (run h (m_init m) scope).2 with
  | Returns _ w' =>
      Some {| threads_ready := threads_ready w';
              namespace := namespace w;
              sys_modules := <[ m_name m := namespace w' ]> (sys_modules w');
              rest := rest w' |}
  | Throws _ _ => None
  end.

(** The classes the body exports, in the order of its text. *)
Definition export_order : list MsgClass :=
  omap exported_class (calls_of init_module_bats_api).

(** ** Facts about execution, for any program and any host *)

Section RunFacts.
Context {W E : Type} (h : Host W E).

Lemma run_call_returns {A} f (k : Prog A) w u w' :
  call_sem h f w = Returns u w' →
  run h (Call f k) w =
    ({| callee := f; before := w; result := Returns u w' |} :: (run h k w').1,
     (run h k w').2).
Proof. intros Hf. simpl. rewrite Hf. by destruct (run h k w'). Qed.

Lemma run_call_throws {A} f (k : Prog A) w e w' :
  call_sem h f w = Throws e w' →
  run h (Call f k) w =
    ([{| callee := f; before := w; result := Throws e w' |}], Throws e w').
Proof. intros Hf. simpl. by rewrite Hf. Qed.

(** The log tells the truth about every call it lists. *)
Lemma run_log_faithful {A} (p : Prog A) w ev :
  ev ∈ (run h p w).1 → result ev = call_sem h (callee ev) (before ev).
Proof.
  revert w. induction p as [a|f k IH]; intros w; [by intros ?%elem_of_nil|].
  destruct (call_sem h f w) as [u w'|e w'] eqn:Hf.
  - rewrite (run_call_returns _ _ _ _ _ Hf). simpl.
    intros [->|Hin]%elem_of_cons; [by simpl|by eapply IH].
  - rewrite (run_call_throws _ _ _ _ _ Hf). simpl.
    by intros ->%list_elem_of_singleton.
Qed.

(** The calls made are an initial segment of the calls written. *)
Lemma run_calls_prefix {A} (p : Prog A) w :
  calls (run h p w).1 `prefix_of` calls_of p.
Proof.
  revert w. induction p as [a|f k IH]; intros w; [done|].
  destruct (call_sem h f w) as [u w'|e w'] eqn:Hf.
  - rewrite (run_call_returns _ _ _ _ _ Hf). simpl.
    apply prefix_cons, IH.
  - rewrite (run_call_throws _ _ _ _ _ Hf). simpl.
    apply prefix_cons, prefix_nil.
Qed.

(** A program that returns has made every call it contains. *)
Lemma run_completed_calls {A} (p : Prog A) w :
  completed (run h p w).2 = true → calls (run h p w).1 = calls_of p.
Proof.
  revert w. induction p as [a|f k IH]; intros w; [done|].
  destruct (call_sem h f w) as [u w'|e w'] eqn:Hf.
  - rewrite (run_call_returns _ _ _ _ _ Hf). simpl.
    intros Hk. f_equal. by apply IH.
  - rewrite (run_call_throws _ _ _ _ _ Hf). by simpl.
Qed.

(** A call that throws is the last one made, and the program ends as
    that call ended. *)
Lemma run_throw_propagates {A} (p : Prog A) w ev e w' :
  ev ∈ (run h p w).1 → result ev = Throws e w' →
  (run h p w).2 = Throws e w' ∧ last (run h p w).1 = Some ev.
Proof.
  revert w. induction p as [a|f k IH]; intros w; [by intros ?%elem_of_nil|].
  destruct (call_sem h f w) as [u w1|e1 w1] eqn:Hf.
  - rewrite (run_call_returns _ _ _ _ _ Hf). simpl.
    intros [->|Hin]%elem_of_cons Hres; [done|].
    destruct (IH _ Hin Hres) as [Ho Hl]. split; [done|].
    destruct (run h k w1).1; [done|]. by rewrite last_cons, Hl.
  - rewrite (run_call_throws _ _ _ _ _ Hf). simpl.
    intros ->%list_elem_of_singleton [= -> ->]. done.
Qed.

(** Conversely, a program that ends by an exception logged the throw. *)
Lemma run_throws_logged {A} (p : Prog A) w e w' :
  (run h p w).2 = Throws e w' →
  ∃ ev, last (run h p w).1 = Some ev ∧ result ev = Throws e w'.
Proof.
  revert w. induction p as [a|f k IH]; intros w; [done|].
  destruct (call_sem h f w) as [u w1|e1 w1] eqn:Hf.
  - rewrite (run_call_returns _ _ _ _ _ Hf). simpl.
    intros Ho. destruct (IH _ Ho) as (ev & Hl & Hres).
    exists ev. split; [|done].
    destruct (run h k w1).1; [done|]. by rewrite last_cons, Hl.
  - rewrite (run_call_throws _ _ _ _ _ Hf). simpl.
    intros [= -> ->]. eauto.
Qed.

End RunFacts.

Section Monotone.
Context {W E : Type} (h : Host W E).

(** If no call ever goes below its input world in some preorder, then the
    world a logged call left behind is still below the final world:
    nothing that was done is undone later. *)
Lemma run_monotone {A} (le : W → W → Prop) `{!PreOrder le} (p : Prog A) w :
  (∀ f v, le v (final_world (call_sem h f v))) →
  le w (final_world (run h p w).2) ∧
  ∀ ev, ev ∈ (run h p w).1 →
        le (final_world (result ev)) (final_world (run h p w).2).
Proof.
  intros Hstep. revert w. induction p as [a|f k IH]; intros w.
  { split; [done|]. by intros ev ?%elem_of_nil. }
  pose proof (Hstep f w) as Hf'.
  destruct (call_sem h f w) as [u w1|e1 w1] eqn:Hf; simpl in Hf'.
  - rewrite (run_call_returns _ _ _ _ _ _ Hf). simpl.
    destruct (IH w1) as [Ho Hev]. split; [by etrans|].
    intros ev [->|Hin]%elem_of_cons; [by simpl|by apply Hev].
  - rewrite (run_call_throws _ _ _ _ _ _ Hf). simpl. split; [done|].
    by intros ev ->%list_elem_of_singleton.
Qed.

End Monotone.

(** ** The initialization body, against any host *)

Section Body.
Context {W E : Type} (h : Host W E).

Lemma calls_of_init :
  calls_of init_module_bats_api =
    [PyEval_InitThreads;
     export_to_python BATSTradingStatusMsg;
     export_to_python BATSTradeMsg;
     export_to_python BATSRetailPriceImproveMsg].
Proof. reflexivity. Qed.

(** How far a load can get.  It ends after the first export call when
    that call throws, after the second when that one throws, and makes
    all four calls otherwise (whether the last one throws or not).  In
    every case the log starts with [PyEval_InitThreads]. *)
Lemma trace_calls_cases w :
  calls (trace h w) ∈
    [[PyEval_InitThreads; export_to_python BATSTradingStatusMsg];
     [PyEval_InitThreads; export_to_python BATSTradingStatusMsg;
      export_to_python BATSTradeMsg];
     calls_of init_module_bats_api].
Proof.
  unfold trace. simpl.
  repeat case_match; simplify_eq/=; set_solver.
Qed.

Lemma trace_head w :
  head (trace h w) =
    Some {| callee := PyEval_InitThreads; before := w;
            result := Returns tt (init_threads h w) |}.
Proof. unfold trace. simpl. by repeat case_match. Qed.

Lemma trace_calls_prefix w :
  calls (trace h w) `prefix_of` calls_of init_module_bats_api.
Proof. apply run_calls_prefix. Qed.

Lemma trace_completed_calls w :
  completed (outcome h w) = true →
  calls (trace h w) = calls_of init_module_bats_api.
Proof. apply run_completed_calls. Qed.

End Body.

(** ** What a load does, for every host *)

Section Load.
Context {W E : Type} (h : Host W E).

(** C1.  In every load, whatever the export routines do, the body calls
    [PyEval_InitThreads] exactly once; that call is the first one made,
    on the initial world, and it returns; and whenever an export routine
    is called, the call to [PyEval_InitThreads] is among the calls made
    before it. *)
Theorem init_threads_once_before_exports (w : W) :
  count_calls PyEval_InitThreads (trace h w) = 1 ∧
  head (trace h w) =
    Some {| callee := PyEval_InitThreads; before := w;
            result := Returns tt (init_threads h w) |} ∧
  ∀ pre c post,
    calls (trace h w) = pre ++ export_to_python c :: post →
    PyEval_InitThreads ∈ pre.
Proof.
  cut (count_calls PyEval_InitThreads (trace h w) = 1 ∧
       ∀ pre c post,
         calls (trace h w) = pre ++ export_to_python c :: post →
         PyEval_InitThreads ∈ pre).
  { intros [Hcount Hbefore]. split; [done|]. split; [apply trace_head|done]. }
  pose proof (trace_calls_cases h w) as Hc. unfold count_calls.
  rewrite calls_of_init in Hc.
  repeat (apply elem_of_cons in Hc as [Hc|Hc]);
    [| | |by apply elem_of_nil in Hc];
    rewrite Hc; (split; [reflexivity|]);
    intros [|f pre] c post Heq; simplify_eq/=; apply list_elem_of_here.
Qed.

(** C2.  When initialization returns, the log holds exactly one call of
    each class's export routine. *)
Theorem each_export_once_on_completion (w : W) :
  completed (outcome h w) = true →
  ∀ c, count_calls (export_to_python c) (trace h w) = 1.
Proof.
  intros Hdone c. unfold count_calls.
  rewrite (trace_completed_calls h w Hdone), calls_of_init.
  by destruct c.
Qed.

(** C3.  The export calls of a load are made in the order trading
    status, trade, retail price improvement: the export calls of any log
    are an initial segment of that list, and the whole list when
    initialization returns. *)
Theorem exports_in_fixed_order (w : W) :
  exported (trace h w) `prefix_of`
    [BATSTradingStatusMsg; BATSTradeMsg; BATSRetailPriceImproveMsg] ∧
  (completed (outcome h w) = true →
   exported (trace h w) =
     [BATSTradingStatusMsg; BATSTradeMsg; BATSRetailPriceImproveMsg]).
Proof.
  split.
  - pose proof (trace_calls_cases h w) as Hc. unfold exported.
    rewrite calls_of_init in Hc.
    repeat (apply elem_of_cons in Hc as [Hc|Hc]);
      [| | |by apply elem_of_nil in Hc]; rewrite Hc; simpl.
    + by exists [BATSTradeMsg; BATSRetailPriceImproveMsg].
    + by exists [BATSRetailPriceImproveMsg].
    + done.
  - intros Hdone. unfold exported.
    by rewrite (trace_completed_calls h w Hdone).
Qed.

(** C4.  The body handles nothing.  If a call made during initialization
    ends by throwing [e] and leaving the world [w'], then that call is an
    export routine, initialization itself ends by throwing that same [e]
    with that same [w'], and the throwing call is the last call made. *)
Theorem export_failure_propagates (w : W) (ev : Event W E) (e : E) (w' : W) :
  ev ∈ trace h w →
  result ev = Throws e w' →
  (∃ c, callee ev = export_to_python c ∧
        export_class h c (before ev) = Throws e w') ∧
  outcome h w = Throws e w' ∧
  last (trace h w) = Some ev.
Proof.
  intros Hin Hres. split; [|by apply run_throw_propagates].
  pose proof (run_log_faithful h _ _ _ Hin) as Hlog.
  rewrite Hres in Hlog. destruct (callee ev) as [|c]; [done|].
  by exists c.
Qed.

(** C6.  The text of the module's initialization routine calls the
    export routine of each class exactly once; so a load calls it at most
    once, and exactly once when initialization returns.  (That the
    routine takes no argument, yields no value and needs no object is how
    it is embedded: [export_to_python c] is a callee determined by the
    class alone, and [call] gives a [Prog unit].) *)
Theorem export_called_once_at_load (c : MsgClass) (w : W) :
  length (filter (λ g, g = export_to_python c)
                 (calls_of (m_init bats_api))) = 1 ∧
  count_calls (export_to_python c) (trace h w) ≤ 1 ∧
  (completed (outcome h w) = true →
   count_calls (export_to_python c) (trace h w) = 1).
Proof.
  split; [by destruct c|]. split.
  - pose proof (trace_calls_cases h w) as Hc. unfold count_calls.
    rewrite calls_of_init in Hc.
    repeat (apply elem_of_cons in Hc as [Hc|Hc]);
      [| | |by apply elem_of_nil in Hc];
      rewrite Hc; destruct c; simpl; lia.
  - intros Hdone. unfold count_calls.
    rewrite (trace_completed_calls h w Hdone), calls_of_init.
    by destruct c.
Qed.

End Load.

(** C9, as amended.  The calls of any load are an initial segment of the
    four calls of the body, and two loads that both return have made the
    same calls, all four in the order of the text, whatever the host, the
    world and the exception type of either. *)
Theorem completed_loads_make_same_calls {W1 E1 W2 E2 : Type}
    (h1 : Host W1 E1) (h2 : Host W2 E2) (w1 : W1) (w2 : W2) :
  calls (trace h1 w1) `prefix_of` calls_of init_module_bats_api ∧
  (completed (outcome h1 w1) = true →
   completed (outcome h2 w2) = true →
   calls (trace h1 w1) = calls (trace h2 w2) ∧
   calls (trace h1 w1) =
     [PyEval_InitThreads;
      export_to_python BATSTradingStatusMsg;
      export_to_python BATSTradeMsg;
      export_to_python BATSRetailPriceImproveMsg]).
Proof.
  split; [apply trace_calls_prefix|].
  intros H1 H2.
  rewrite (trace_completed_calls h1 w1 H1), (trace_completed_calls h2 w2 H2).
  done.
Qed.

(** ** Failure leaves the work done so far in place *)

Lemma keeps_preorder {R : Type} : PreOrder (@keeps R).
Proof.
  split.
  - by intros w.
  - intros a b c [Hab1 Hab2] [Hbc1 Hbc2]. split; [auto|by etrans].
Qed.

(** C10.  Take a host whose [PyEval_InitThreads] enables threading and
    whose export routines, returning or throwing, never disable it and
    never remove a symbol.  If initialization ends by an exception, then in
    the world it leaves behind threading is enabled, and the namespace
    still holds every symbol that was there when an earlier call returned:
    the body undoes nothing. *)
Theorem no_rollback_on_failure {R E : Type} (h : Host (Interp R) E)
    (w wf : Interp R) (e : E) :
  (∀ v, threads_ready (init_threads h v) = true ∧
        namespace v ⊆ namespace (init_threads h v)) →
  (∀ c v, keeps v (final_world (export_class h c v))) →
  outcome h w = Throws e wf →
  threads_ready wf = true ∧
  ∀ ev u w1, ev ∈ trace h w → result ev = Returns u w1 →
             namespace w1 ⊆ namespace wf.
Proof.
  intros Hinit Hexp Hout.
  assert (Hstep : ∀ f v, keeps v (final_world (call_sem h f v))).
  { intros [|c] v; [|apply Hexp]. simpl. split; [intros _|]; apply Hinit. }
  destruct (run_monotone h keeps (PreOrder0:=keeps_preorder)
              init_module_bats_api w Hstep) as [_ Hev].
  fold (trace h w) in Hev. fold (outcome h w) in Hev. rewrite Hout in Hev.
  simpl in Hev. split.
  - assert (Hfirst : {| callee := PyEval_InitThreads; before := w;
                        result := Returns tt (init_threads h w) |}
                     ∈ trace h w).
    { unfold trace. simpl. repeat case_match; simplify_eq/=;
        apply list_elem_of_here. }
    apply Hev in Hfirst as [Hthr _]. simpl in Hthr. apply Hthr, Hinit.
  - intros ev u w1 Hin Hres. apply Hev in Hin as [_ Hns].
    by rewrite Hres in Hns.
Qed.

(** ** The load against the runtime the spec describes *)

Section SpecHost.
Context {R E : Type}.

Lemma run_spec_host (w : Interp R) :
  outcome (spec_host (E:=E)) w =
    Returns tt
      (register (InterfaceOf BATSRetailPriceImproveMsg)
         (register (InterfaceOf BATSTradeMsg)
            (register (InterfaceOf BATSTradingStatusMsg)
               (enable_threads w)))).
Proof. reflexivity. Qed.

Lemma register_all (ns : gset Symbol) :
  {[ InterfaceOf BATSRetailPriceImproveMsg ]} ∪
    ({[ InterfaceOf BATSTradeMsg ]} ∪
       ({[ InterfaceOf BATSTradingStatusMsg ]} ∪ ns)) =
  message_interfaces ∪ ns.
Proof.
  unfold message_interfaces. apply set_eq. intros s.
  rewrite !elem_of_union, !elem_of_singleton. tauto.
Qed.

(** C5.  After initialization the module namespace holds the interfaces
    of the three message classes and, beyond those, only what it held
    before: nothing else is registered. *)
Theorem public_surface_is_three_types (w : Interp R) :
  namespace (final_world (outcome (spec_host (E:=E)) w)) =
    message_interfaces ∪ namespace w.
Proof. rewrite run_spec_host. simpl. apply register_all. Qed.

(** C7.  Initialization returns; it turns the interpreter's threading
    switch on and adds the three interfaces to the module namespace; the
    other modules and the rest of the process state are as they were;
    and the body makes no call besides [PyEval_InitThreads] and the
    three export routines. *)
Theorem init_side_effects (w : Interp R) :
  outcome (spec_host (E:=E)) w =
    Returns tt {| threads_ready := true;
                  namespace := message_interfaces ∪ namespace w;
                  sys_modules := sys_modules w;
                  rest := rest w |} ∧
  calls (trace (spec_host (E:=E)) w) =
    [PyEval_InitThreads;
     export_to_python BATSTradingStatusMsg;
     export_to_python BATSTradeMsg;
     export_to_python BATSRetailPriceImproveMsg].
Proof.
  split; [|reflexivity].
  rewrite run_spec_host. unfold register, enable_threads. simpl.
  do 2 f_equal. apply register_all.
Qed.

(** C8.  The module is named [bats_api], and after a load the runtime
    holds, under that name, a namespace made of the interfaces of the
    three message classes. *)
Theorem module_registered_as_bats_api (w : Interp R) :
  m_name bats_api = "bats_api" ∧
  ∃ w', load (spec_host (E:=E)) bats_api w = Some w' ∧
        sys_modules w' !! "bats_api" = Some message_interfaces.
Proof.
  split; [reflexivity|].
  eexists. split; [reflexivity|]. simpl.
  by rewrite lookup_insert_eq.
Qed.

End SpecHost.

(** ** The theorems at concrete loads *)

Lemma init_threads_once_before_exports_witness :
  count_calls PyEval_InitThreads (trace trade_fails fresh) = 1 ∧
  PyEval_InitThreads ∈
    [PyEval_InitThreads; export_to_python BATSTradingStatusMsg].
Proof.
  split.
  - exact (proj1 (init_threads_once_before_exports trade_fails fresh)).
  - apply (proj2 (proj2 (init_threads_once_before_exports trade_fails fresh))
             [PyEval_InitThreads; export_to_python BATSTradingStatusMsg]
             BATSTradeMsg []).
    reflexivity.
Defined.

Lemma each_export_once_on_completion_witness :
  completed (outcome (spec_host (E:=string)) fresh) = true ∧
  count_calls (export_to_python BATSTradeMsg)
              (trace (spec_host (E:=string)) fresh) = 1.
Proof.
  split; [reflexivity|].
  apply (each_export_once_on_completion (spec_host (E:=string)) fresh).
  reflexivity.
Defined.

Lemma exports_in_fixed_order_witness :
  completed (outcome (spec_host (E:=string)) warm) = true ∧
  exported (trace (spec_host (E:=string)) warm) =
    [BATSTradingStatusMsg; BATSTradeMsg; BATSRetailPriceImproveMsg].
Proof.
  split; [reflexivity|].
  apply (proj2 (exports_in_fixed_order (spec_host (E:=string)) warm)).
  reflexivity.
Defined.

Lemma export_failure_propagates_witness :
  trade_throw ∈ trace trade_fails fresh ∧
  result trade_throw = Throws "error_already_set" after_status ∧
  outcome trade_fails fresh = Throws "error_already_set" after_status ∧
  last (trace trade_fails fresh) = Some trade_throw.
Proof.
  assert (Hin : trade_throw ∈ trace trade_fails fresh).
  { apply list_elem_of_In. simpl. auto. }
  split; [exact Hin|]. split; [reflexivity|].
  exact (proj2 (export_failure_propagates trade_fails fresh trade_throw
                  "error_already_set" after_status Hin eq_refl)).
Defined.

Lemma export_called_once_at_load_witness :
  completed (outcome (spec_host (E:=string)) fresh) = true ∧
  count_calls (export_to_python BATSRetailPriceImproveMsg)
              (trace (spec_host (E:=string)) fresh) = 1.
Proof.
  split; [reflexivity|].
  apply (proj2 (proj2 (export_called_once_at_load (spec_host (E:=string))
                         BATSRetailPriceImproveMsg fresh))).
  reflexivity.
Defined.

(** C9 as stated fails: a load during which the trade export throws makes
    three calls, a load that returns makes four. *)
Lemma loads_differ_in_calls :
  calls (trace trade_fails fresh) =
    [PyEval_InitThreads;
     export_to_python BATSTradingStatusMsg;
     export_to_python BATSTradeMsg] ∧
  calls (trace (spec_host (E:=string)) fresh) =
    [PyEval_InitThreads;
     export_to_python BATSTradingStatusMsg;
     export_to_python BATSTradeMsg;
     export_to_python BATSRetailPriceImproveMsg] ∧
  calls (trace trade_fails fresh) ≠ calls (trace (spec_host (E:=string)) fresh).
Proof. split; [reflexivity|]. split; [reflexivity|]. discriminate. Qed.

Lemma completed_loads_make_same_calls_witness :
  completed (outcome (spec_host (E:=string)) fresh) = true ∧
  completed (outcome (spec_host (E:=nat)) warm) = true ∧
  calls (trace (spec_host (E:=string)) fresh) =
    calls (trace (spec_host (E:=nat)) warm).
Proof.
  split; [reflexivity|]. split; [reflexivity|].
  apply (proj2 (completed_loads_make_same_calls
                  (spec_host (E:=string)) (spec_host (E:=nat)) fresh warm));
    reflexivity.
Defined.

Lemma failing_host_enables {R E : Type} (bad : MsgClass) (e : E) (v : Interp R) :
  threads_ready (init_threads (failing_host bad e) v) = true ∧
  namespace v ⊆ namespace (init_threads (failing_host bad e) v).
Proof. by split. Qed.

Lemma failing_host_keeps {R E : Type} (bad : MsgClass) (e : E) c (v : Interp R) :
  keeps v (final_world (export_class (failing_host bad e) c v)).
Proof.
  simpl. case_decide; simpl; [apply keeps_preorder|].
  unfold keeps. simpl. split; [done|]. apply union_subseteq_r.
Qed.

Lemma no_rollback_on_failure_witness :
  outcome rpi_fails fresh = Throws "error_already_set" after_trade ∧
  threads_ready after_trade = true ∧
  namespace after_status ⊆ namespace after_trade.
Proof.
  destruct (no_rollback_on_failure rpi_fails fresh after_trade
              "error_already_set"
              (failing_host_enables _ _) (failing_host_keeps _ _) eq_refl)
    as [Hthr Hns].
  split; [reflexivity|]. split; [exact Hthr|].
  apply (Hns {| callee := export_to_python BATSTradingStatusMsg;
                before := enable_threads fresh;
                result := Returns tt after_status |} tt after_status);
    [|reflexivity].
  apply list_elem_of_In. simpl. auto.
Defined.

(** ** More on the body: where failures come from and how worlds flow *)

Section Flow.
Context {W E : Type} (h : Host W E).

(** The first call logged was made in the world the program started in. *)
Lemma run_head_before {A} (p : Prog A) w ev :
  head (run h p w).1 = Some ev → before ev = w.
Proof.
  destruct p as [a|f k]; [done|].
  destruct (call_sem h f w) as [u w1|e1 w1] eqn:Hf.
  - rewrite (run_call_returns _ _ _ _ _ _ Hf). simpl. by intros [= <-].
  - rewrite (run_call_throws _ _ _ _ _ _ Hf). simpl. by intros [= <-].
Qed.

(** Two neighbours in the log: the earlier call returned, and the later
    one was made in the world it left. *)
Lemma run_chained {A} (p : Prog A) w i ev1 ev2 :
  (run h p w).1 !! i = Some ev1 →
  (run h p w).1 !! S i = Some ev2 →
  completed (result ev1) = true ∧ before ev2 = final_world (result ev1).
Proof.
  revert w i. induction p as [a|f k IH]; intros w i; [done|].
  destruct (call_sem h f w) as [u w1|e1 w1] eqn:Hf.
  - rewrite (run_call_returns _ _ _ _ _ _ Hf). simpl.
    destruct i as [|i]; simpl; [|by apply IH].
    intros [= <-] H2. simpl. split; [done|].
    apply (run_head_before k). by rewrite <-head_lookup in H2.
  - rewrite (run_call_throws _ _ _ _ _ _ Hf). simpl.
    by destruct i.
Qed.

(** A fact about worlds that every call carries from the world it starts
    in to the world it leaves holds all along a run that starts with it. *)
Lemma run_invariant {A} (P : W → Prop) (p : Prog A) w :
  (∀ f v, P v → P (final_world (call_sem h f v))) →
  P w →
  P (final_world (run h p w).2) ∧
  ∀ ev, ev ∈ (run h p w).1 → P (before ev) ∧ P (final_world (result ev)).
Proof.
  intros Hstep. revert w. induction p as [a|f k IH]; intros w Hw.
  { split; [done|]. by intros ev ?%elem_of_nil. }
  pose proof (Hstep f w Hw) as Hf'.
  destruct (call_sem h f w) as [u w1|e1 w1] eqn:Hf; simpl in Hf'.
  - rewrite (run_call_returns _ _ _ _ _ _ Hf). simpl.
    destruct (IH _ Hf') as [Ho Hev]. split; [done|].
    intros ev [->|Hin]%elem_of_cons; [by simpl|by apply Hev].
  - rewrite (run_call_throws _ _ _ _ _ _ Hf). simpl. split; [done|].
    by intros ev ->%list_elem_of_singleton.
Qed.

(** X1.  The body raises nothing of its own.  When initialization ends by
    throwing [e] and leaving [w'], the last call it made was the export
    routine of some class, and it is that routine which threw [e] and left
    [w'], in the world it was called in. *)
Theorem init_fails_only_through_export (w w' : W) (e : E) :
  outcome h w = Throws e w' →
  ∃ ev c, last (trace h w) = Some ev ∧
          callee ev = export_to_python c ∧
          export_class h c (before ev) = Throws e w'.
Proof.
  intros Hout.
  destruct (run_throws_logged h init_module_bats_api w e w' Hout)
    as (ev & Hlast & Hres).
  fold (trace h w) in Hlast.
  assert (Hin : ev ∈ trace h w).
  { apply last_Some in Hlast as [t ->]. apply elem_of_app. right.
    apply list_elem_of_here. }
  pose proof (run_log_faithful h _ _ _ Hin) as Hlog. rewrite Hres in Hlog.
  destruct (callee ev) as [|c] eqn:Hc; [done|]. by exists ev, c.
Qed.

(** X2.  Initialization returns exactly when the three export routines
    return, each one run in the world its predecessor left, the first in
    the world [PyEval_InitThreads] left; and the world it then returns is
    the one the last export left. *)
Theorem init_returns_iff_exports_return (w : W) :
  let w0 := init_threads h w in
  let w1 := final_world (export_class h BATSTradingStatusMsg w0) in
  let w2 := final_world (export_class h BATSTradeMsg w1) in
  let w3 := final_world (export_class h BATSRetailPriceImproveMsg w2) in
  (completed (outcome h w) = true ↔
     completed (export_class h BATSTradingStatusMsg w0) = true ∧
     completed (export_class h BATSTradeMsg w1) = true ∧
     completed (export_class h BATSRetailPriceImproveMsg w2) = true) ∧
  (completed (outcome h w) = true → outcome h w = Returns tt w3).
Proof.
  unfold outcome. simpl.
  destruct (export_class h BATSTradingStatusMsg (init_threads h w))
    as [[] v1|e1 v1]; simpl; [|by intuition].
  destruct (export_class h BATSTradeMsg v1) as [[] v2|e2 v2];
    simpl; [|by intuition].
  destruct (export_class h BATSRetailPriceImproveMsg v2) as [[] v3|e3 v3];
    simpl; by intuition.
Qed.

(** X3.  The body touches no state itself.  A fact about worlds that holds
    when initialization starts, and that [PyEval_InitThreads] and every
    export routine (returning or throwing) carry over, holds in the world
    initialization ends in, and before and after every call it makes. *)
Theorem init_preserves_invariant (P : W → Prop) (w : W) :
  P w →
  (∀ v, P v → P (init_threads h v)) →
  (∀ c v, P v → P (final_world (export_class h c v))) →
  P (final_world (outcome h w)) ∧
  ∀ ev, ev ∈ trace h w → P (before ev) ∧ P (final_world (result ev)).
Proof.
  intros Hw Hinit Hexp. apply run_invariant; [|done].
  intros [|c] v Hv; simpl; auto.
Qed.

(** X4.  A failing export cuts the load short.  When the export routine of
    class [c] throws, the classes exported are those of the body's order up
    to and including [c]; the export routine of a class further down that
    order is not called at all. *)
Theorem exports_stop_at_first_failure (w : W) (ev : Event W E) (c : MsgClass) :
  ev ∈ trace h w →
  callee ev = export_to_python c →
  completed (result ev) = false →
  ∃ later, export_order = exported (trace h w) ++ later ∧
           last (exported (trace h w)) = Some c ∧
           ∀ c', c' ∈ later →
                 count_calls (export_to_python c') (trace h w) = 0.
Proof.
  intros Hin Hc Hres.
  destruct (result ev) as [u v|e v] eqn:Hr; [done|].
  destruct (run_throw_propagates h _ _ _ _ _ Hin Hr) as [_ Hlast].
  fold (trace h w) in Hlast.
  assert (Hlc : last (calls (trace h w)) = Some (export_to_python c)).
  { unfold calls. by rewrite fmap_last, Hlast, <-Hc. }
  pose proof (trace_calls_cases h w) as Hcases.
  unfold exported, count_calls. rewrite calls_of_init in Hcases.
  repeat (apply elem_of_cons in Hcases as [Hcases|Hcases]);
    [| | |by apply elem_of_nil in Hcases];
    rewrite Hcases in Hlc |- *; simpl in Hlc; simplify_eq.
  - exists [BATSTradeMsg; BATSRetailPriceImproveMsg].
    split; [done|]. split; [done|].
    intros c' Hc'. apply elem_of_cons in Hc' as [->|Hc']; [done|].
    by apply list_elem_of_singleton in Hc' as ->.
  - exists [BATSRetailPriceImproveMsg].
    split; [done|]. split; [done|].
    by intros c' ->%list_elem_of_singleton.
  - exists []. split; [done|]. split; [done|].
    by intros c' ?%elem_of_nil.
Qed.

(** X5.  The log follows the text, and nothing happens between two calls
    of the body.  Of two neighbouring entries of the log, the earlier one
    is the call written at that position of the body, it returned, and the
    later call was made in exactly the world the earlier one left. *)
Theorem calls_run_back_to_back (w : W) (i : nat) (ev1 ev2 : Event W E) :
  trace h w !! i = Some ev1 →
  trace h w !! S i = Some ev2 →
  calls_of init_module_bats_api !! i = Some (callee ev1) ∧
  completed (result ev1) = true ∧
  before ev2 = final_world (result ev1).
Proof.
  intros H1 H2. split; [|by eapply run_chained].
  destruct (trace_calls_prefix h w) as [rest' ->].
  apply lookup_app_l_Some. unfold calls.
  by rewrite list_lookup_fmap, H1.
Qed.

End Flow.

(** ** The further theorems at concrete loads *)

Lemma init_fails_only_through_export_witness :
  outcome trade_fails fresh = Throws "error_already_set" after_status ∧
  ∃ ev c, last (trace trade_fails fresh) = Some ev ∧
          callee ev = export_to_python c ∧
          export_class trade_fails c (before ev) =
            Throws "error_already_set" after_status.
Proof.
  split; [reflexivity|].
  apply (init_fails_only_through_export trade_fails fresh after_status
           "error_already_set").
  reflexivity.
Defined.

Lemma init_returns_iff_exports_return_witness :
  completed (outcome (spec_host (E:=string)) fresh) = true ∧
  outcome (spec_host (E:=string)) fresh =
    Returns tt (register (InterfaceOf BATSRetailPriceImproveMsg) after_trade).
Proof.
  split; [reflexivity|].
  apply (proj2 (init_returns_iff_exports_return (spec_host (E:=string)) fresh)).
  reflexivity.
Defined.

Lemma enable_threads_keeps_symbol {R : Type} (s : Symbol) (v : Interp R) :
  s ∈ namespace v → s ∈ namespace (enable_threads v).
Proof. done. Qed.

Lemma export_spec_keeps_symbol {R E : Type} (s : Symbol) c (v : Interp R) :
  s ∈ namespace v →
  s ∈ namespace (final_world (export_spec (E:=E) c v)).
Proof. simpl. apply elem_of_union_r. Qed.

Lemma init_preserves_invariant_witness :
  Other "__doc__" ∈ namespace warm ∧
  Other "__doc__" ∈ namespace (final_world (outcome (spec_host (E:=string)) warm)).
Proof.
  assert (Hw : Other "__doc__" ∈ namespace warm).
  { apply elem_of_singleton. reflexivity. }
  split; [exact Hw|].
  exact (proj1 (init_preserves_invariant (spec_host (E:=string))
                  (λ v, Other "__doc__" ∈ namespace v) warm Hw
                  (enable_threads_keeps_symbol _)
                  (export_spec_keeps_symbol _))).
Defined.

Lemma exports_stop_at_first_failure_witness :
  trade_throw ∈ trace trade_fails fresh ∧
  callee trade_throw = export_to_python BATSTradeMsg ∧
  completed (result trade_throw) = false ∧
  ∃ later, export_order = exported (trace trade_fails fresh) ++ later ∧
           last (exported (trace trade_fails fresh)) = Some BATSTradeMsg ∧
           ∀ c', c' ∈ later →
                 count_calls (export_to_python c') (trace trade_fails fresh) = 0.
Proof.
  assert (Hin : trade_throw ∈ trace trade_fails fresh).
  { apply list_elem_of_In. simpl. auto. }
  split; [exact Hin|]. split; [reflexivity|]. split; [reflexivity|].
  exact (exports_stop_at_first_failure trade_fails fresh trade_throw
           BATSTradeMsg Hin eq_refl eq_refl).
Defined.

Lemma calls_run_back_to_back_witness :
  trace rpi_fails fresh !! 1 =
    Some {| callee := export_to_python BATSTradingStatusMsg;
            before := enable_threads fresh;
            result := Returns tt after_status |} ∧
  trace rpi_fails fresh !! 2 =
    Some {| callee := export_to_python BATSTradeMsg;
            before := after_status;
            result := Returns tt after_trade |} ∧
  calls_of init_module_bats_api !! 1 =
    Some (export_to_python BATSTradingStatusMsg).
Proof.
  split; [reflexivity|]. split; [reflexivity|].
  exact (proj1 (calls_run_back_to_back rpi_fails fresh 1 _ _ eq_refl eq_refl)).
Defined.
